(** * A shallow embedding of the elysia-bun user API

  The program is a CRUD REST service for one resource, [User]:
  - [models/user-model.ts] declares the mongoose schema of a user;
  - [controller/user-controller.ts] registers the four route handlers;
  - [index.ts] installs the bearer gate, reads the port and boots the
    process (connect to the database, then listen).

  The file first embeds these three sources, together with the part of
  mongoose they call into and the header check of the README, and then
  states and proves the properties of the specification about them,
  followed by further properties of the code. *)

From Stdlib Require Import NArith String Ascii List Lia.
From stdpp Require Import base option gmap strings list fin_maps pretty.

Open Scope string_scope.
Open Scope N_scope.

(** ** JavaScript values the program inspects *)

Module JS.

(** A string is kept as the sequence of its code units, so that
    [String.length] is its [.length] and [=] is [===] on strings.

    [!x] on a value of type [string | undefined]: [undefined] and the
    empty string are falsy, every other string is truthy. *)
Definition truthy_string (s : string) : bool :=
  negb (bool_decide (s = "")).

Definition truthy (v : option string) : bool :=
  match v with
  | None => false
  | Some s => truthy_string s
  end.

(** [v === lit] for [v : string | undefined] and a string literal. *)
Definition strict_eq (v : option string) (lit : string) : bool :=
  match v with
  | None => false
  | Some s => bool_decide (s = lit)
  end.

(** [a || b]: the left operand when it is truthy, else the right one. *)
Definition or {A : Type} (inj : string → A) (a : option string) (b : A) : A :=
  match a with
  | Some s => if truthy_string s then inj s else b
  | None => b
  end.

(** [s.slice(start)] for a literal [start >= 0]: the string without its
    first [start] code units, the empty string when it has no more. *)
Fixpoint slice (start : nat) (s : string) : string :=
  match start, s with
  | O, _ => s
  | S n, String _ rest => slice n rest
  | S _, EmptyString => EmptyString
  end.

(** A request body, a JSON object read at the type [TUser]: property
    names to string values.  Properties may be missing and others may be
    present; [body !! k] is the value of [body.k], [None] for
    [undefined]. *)
Abbreviation Object := (gmap string string).

End JS.

(** ** models/user-model.ts *)

Module UserModel.

(** Options of a path of type [String] in a mongoose schema. *)
Record SchemaTypeOptions := {
  required : bool;
  minlength : N;
  maxlength : N
}.

(** [{ type: String, required: true, minlength: 3, maxlength: 255 }] *)
Definition string_3_255 : SchemaTypeOptions :=
  {| required := true; minlength := 3; maxlength := 255 |}.

Record Schema := {
  name_path : SchemaTypeOptions;
  email_path : SchemaTypeOptions;
  password_path : SchemaTypeOptions
}.

Definition UserSchema : Schema :=
  {| name_path := string_3_255;
     email_path := string_3_255;
     password_path := string_3_255 |}.

(** The three fields of [IUser], besides the document identifier. *)
Record Fields := {
  name : string;
  email : string;
  password : string
}.

#[global] Instance Fields_eq_dec : EqDecision Fields.
Proof. solve_decision. Defined.

End UserModel.

(** ** The part of mongoose the controller calls *)

Module Mongoose.
Import UserModel.

(** An [ObjectId] is a 12-byte value; it is kept as the number its 24
    hexadecimal digits denote. *)
Abbreviation ObjectId := N.

Inductive ValidatorKind := KRequired | KMinlength | KMaxlength.

#[global] Instance ValidatorKind_eq_dec : EqDecision ValidatorKind.
Proof. solve_decision. Defined.

(** What a rejected promise or a [throw] carries. *)
Inductive Error :=
| Unauthorized
    (* new Error("Unauthorized") *)
| ValidationError (errors : list (string * ValidatorKind))
    (* one entry per failing path, with the kind of the failing validator *)
| CastError (value : string)
    (* Cast to ObjectId failed for value ... at path "_id" *)
| DuplicateKey (id : ObjectId).
    (* E11000 on the unique index of _id *)

#[global] Instance Error_eq_dec : EqDecision Error.
Proof. solve_decision. Defined.

Inductive Outcome (A : Type) :=
| Returned (a : A)
| Thrown (e : Error).
Arguments Returned {A} a.
Arguments Thrown {A} e.

(** A stored document as the driver hands it back. *)
Record IUser := {
  _id : ObjectId;
  fields : Fields
}.

#[global] Instance IUser_eq_dec : EqDecision IUser.
Proof. solve_decision. Defined.

(** The calls that reach the persistence layer, in the order made. *)
Inductive Call :=
| CallCreate (n e p : option string)
| CallFind
| CallFindByIdAndUpdate (id : string) (n e p : option string)
| CallFindByIdAndDelete (id : string).

(** The state the handlers run against: the [users] collection keyed by
    [_id], the next identifier of the driver's [ObjectId] generator
    (abstracted to a counter: it never hands out a value twice), and the
    journal of persistence calls. *)
Record World := {
  users : gmap ObjectId Fields;
  next_oid : ObjectId;
  journal : list Call
}.

Definition empty_world : World :=
  {| users := ∅; next_oid := 0; journal := [] |}.

Definition M (A : Type) : Type := World → Outcome A * World.

#[global] Instance M_ret : MRet M := λ A a w, (Returned a, w).
#[global] Instance M_bind : MBind M := λ A B k m w,
  match m w with
  | (Returned a, w') => k a w'
  | (Thrown e, w') => (Thrown e, w')
  end.

Definition throw {A : Type} (e : Error) : M A := λ w, (Thrown e, w).

Definition record_call (c : Call) : M unit := λ w,
  (Returned (),
   {| users := users w; next_oid := next_oid w;
      journal := journal w ++ [c] |}).

(** [new ObjectId()], run when a document is constructed. *)
Definition new_ObjectId : M ObjectId := λ w,
  (Returned (next_oid w),
   {| users := users w; next_oid := N.succ (next_oid w);
      journal := journal w |}).

(** *** Casting a string to an [ObjectId] *)

Definition hex_digit (c : ascii) : option N :=
  let n := N_of_ascii c in
  if (48 <=? n) && (n <=? 57) then Some (n - 48)
  else if (97 <=? n) && (n <=? 102) then Some (n - 87)
  else if (65 <=? n) && (n <=? 70) then Some (n - 55)
  else None.

Fixpoint parse_hex (s : string) (acc : N) : option N :=
  match s with
  | EmptyString => Some acc
  | String c rest =>
      match hex_digit c with
      | Some d => parse_hex rest (16 * acc + d)
      | None => None
      end
  end.

(** A string of 24 hexadecimal digits casts to the [ObjectId] they
    denote, whatever the version of the driver.  Drivers differ on other
    strings (some also cast a string of 12 characters); the model follows
    those that cast nothing else, and the statements about identifiers
    assume a cast that succeeds or name an identifier no driver casts. *)
Definition castObjectId (s : string) : option ObjectId :=
  if N.of_nat (String.length s) =? 24 then parse_hex s 0 else None.

Definition cast_id (id : string) : M ObjectId :=
  match castObjectId id with
  | Some oid => mret oid
  | None => throw (CastError id)
  end.

(** *** Validation of a document against [UserSchema] *)

(** The validators of one path run in the order [required], [minlength],
    [maxlength]; the first one that fails is reported.  [required] fails
    on [undefined] and on the empty string. *)
Definition doValidate (o : SchemaTypeOptions) (v : option string)
  : option ValidatorKind :=
  match v with
  | None => if required o then Some KRequired else None
  | Some s =>
      let len := N.of_nat (String.length s) in
      if required o && (len =? 0) then Some KRequired
      else if len <? minlength o then Some KMinlength
      else if maxlength o <? len then Some KMaxlength
      else None
  end.

Definition path_errors (path : string) (o : SchemaTypeOptions)
    (v : option string) : list (string * ValidatorKind) :=
  match doValidate o v with
  | Some k => [(path, k)]
  | None => []
  end.

Definition validateSync (sch : Schema) (n e p : option string)
  : list (string * ValidatorKind) :=
  path_errors "name" (name_path sch) n
  ++ path_errors "email" (email_path sch) e
  ++ path_errors "password" (password_path sch) p.

(** *** Model operations *)

Definition read_users : M (gmap ObjectId Fields) := λ w,
  (Returned (users w), w).

Definition write_users (m : gmap ObjectId Fields) : M unit := λ w,
  (Returned (),
   {| users := m; next_oid := next_oid w; journal := journal w |}).

Definition insertOne (d : IUser) : M unit :=
  m ← read_users ;
  match m !! _id d with
  | Some _ => throw (DuplicateKey (_id d))
  | None => write_users (<[_id d := fields d]> m)
  end.

(** [user.create({ name, email, password })]: construct the document
    (which draws its [_id]), validate it, insert it.  With [UserSchema]
    every path is required, so a document without errors has its three
    fields. *)
Definition create (n e p : option string) : M IUser :=
  record_call (CallCreate n e p) ;;
  id ← new_ObjectId ;
  match validateSync UserSchema n e p, n, e, p with
  | [], Some n', Some e', Some p' =>
      let d := {| _id := id;
                  fields := {| name := n'; email := e'; password := p' |} |} in
      insertOne d ;; mret d
  | errs, _, _, _ => throw (ValidationError errs)
  end.

Definition to_document (kv : ObjectId * Fields) : IUser :=
  {| _id := kv.1; fields := kv.2 |}.

Definition documents (m : gmap ObjectId Fields) : list IUser :=
  to_document <$> map_to_list m.

(** [user.find()] *)
Definition find : M (list IUser) :=
  record_call CallFind ;;
  m ← read_users ;
  mret (documents m).

(** [$set] of the keys of the update that are not [undefined]. *)
Definition apply_update (n e p : option string) (old : Fields) : Fields :=
  {| name := default (name old) n;
     email := default (email old) e;
     password := default (password old) p |}.

(** [user.findByIdAndUpdate(id, { name, email, password }, { new })]:
    update validators are off by default, so no length is checked. *)
Definition findByIdAndUpdate (id : string) (n e p : option string)
    (new : bool) : M (option IUser) :=
  record_call (CallFindByIdAndUpdate id n e p) ;;
  oid ← cast_id id ;
  m ← read_users ;
  match m !! oid with
  | None => mret None
  | Some old =>
      let upd := apply_update n e p old in
      write_users (<[oid := upd]> m) ;;
      mret (Some {| _id := oid; fields := if new then upd else old |})
  end.

(** [user.findByIdAndDelete(id, options)]: the options play no part. *)
Definition findByIdAndDelete (id : string) : M (option IUser) :=
  record_call (CallFindByIdAndDelete id) ;;
  oid ← cast_id id ;
  m ← read_users ;
  match m !! oid with
  | None => mret None
  | Some old =>
      write_users (delete oid m) ;;
      mret (Some {| _id := oid; fields := old |})
  end.

End Mongoose.

(** ** controller/user-controller.ts *)

Module UserController.
Import UserModel Mongoose.

(** What a handler returns, before serialisation. *)
Inductive Value :=
| VDoc (d : IUser)
| VNull
| VArray (ds : list IUser)
| VString (s : string).

#[global] Instance Value_eq_dec : EqDecision Value.
Proof. solve_decision. Defined.

Definition of_nullable (o : option IUser) : Value :=
  match o with
  | Some d => VDoc d
  | None => VNull
  end.

(** [app.post("/user", ...)] *)
Definition post_user (body : JS.Object) : M Value :=
  let n := body !! "name" in
  let e := body !! "email" in
  let p := body !! "password" in
  newUser ← create n e p ;
  mret (VDoc newUser).

(** [app.get("/user", ...)] *)
Definition get_user : M Value :=
  us ← find ;
  mret (VArray us).

(** [app.put("/user/:id", ...)] *)
Definition put_user (id : string) (body : JS.Object) : M Value :=
  let n := body !! "name" in
  let e := body !! "email" in
  let p := body !! "password" in
  updatedUser ← findByIdAndUpdate id n e p true ;
  mret (of_nullable updatedUser).

(** [app.delete("/user/:id", ...)] *)
Definition delete_user (id : string) : M Value :=
  findByIdAndDelete id ;;
  mret (VString "User deleted").

End UserController.

(** ** index.ts *)

Module App.
Import UserModel Mongoose UserController.

(** The routes [UserController] registers on the application.  A create
    or an update is taken with the body object its handler destructures;
    a request without one fails in the destructuring, before any call of
    the model, and is not a [Route]. *)
Inductive Route :=
| POST_user (body : JS.Object)
| GET_user
| PUT_user (id : string) (body : JS.Object)
| DELETE_user (id : string).

(** A request matched to a route.  [bearer] is what the bearer plugin
    derives from the [Authorization] header: the credential after
    [Bearer ], or [undefined]. *)
Record Request := {
  bearer : option string;
  route : Route
}.

Definition secret : string := "12345678".

(** The hook given to [onBeforeHandle]. *)
Definition onBeforeHandle (bearer : option string) : M unit :=
  if negb (JS.truthy bearer) then throw Unauthorized
  else
    let isAuthorized := JS.strict_eq bearer secret in
    if negb isAuthorized then throw Unauthorized
    else mret ().

Definition handler (r : Route) : M Value :=
  match r with
  | POST_user body => post_user body
  | GET_user => get_user
  | PUT_user id body => put_user id body
  | DELETE_user id => delete_user id
  end.

(** One request through the application: the hook, then the handler of
    the route.  A [throw] in the hook ends the request. *)
Definition handle (req : Request) : M Value :=
  onBeforeHandle (bearer req) ;;
  handler (route req).

(** Requests served one after the other; the responses in order. *)
Fixpoint serve (reqs : list Request) (w : World)
  : list (Outcome Value) * World :=
  match reqs with
  | [] => ([], w)
  | req :: rest =>
      let (r, w') := handle req w in
      let (rs, w'') := serve rest w' in
      (r :: rs, w'')
  end.

(** *** Port and start-up *)

Inductive PortValue :=
| PortString (s : string)
| PortNumber (n : N).

(** [process.env.PORT || 4001] *)
Definition PORT (env : JS.Object) : PortValue :=
  JS.or PortString (env !! "PORT") (PortNumber 4001).

(** [`${PORT}`] *)
Definition port_text (p : PortValue) : string :=
  match p with
  | PortString s => s
  | PortNumber n => pretty n
  end.

(** How a promise settles (or a call that may throw ends). *)
Inductive Settled :=
| Fulfilled
| Rejected (err : string).

Inductive Event :=
| ConsoleLog (msg : string)
| Listen (port : PortValue).

(** [mongoose.connect(...).then(() => { log; app.listen(PORT, () => log) })
    .catch(err => log(err))], as the events it produces, in order.  The
    [catch] also receives what [app.listen] throws inside the [then]. *)
Definition main (env : JS.Object) (connect listen : Settled) : list Event :=
  match connect with
  | Fulfilled =>
      ConsoleLog "Connected to MongoDB" ::
      match listen with
      | Fulfilled =>
          [ Listen (PORT env);
            ConsoleLog ("Server is up and running on port "
                        +:+ port_text (PORT env)) ]
      | Rejected err => [ ConsoleLog err ]
      end
  | Rejected err => [ ConsoleLog err ]
  end.

End App.

(** ** The server of the README

    The README builds the same server with a hand-written check of the
    [authorization] header in place of the bearer plugin. *)

Module Readme.
Import UserModel Mongoose UserController App.

(** [authenticate(context)]: [context.authorization?.slice(7)] compared
    with the secret.  [context] is the record of request headers. *)
Definition authenticate (context : JS.Object) : M unit :=
  let isAuthorized :=
    JS.strict_eq (JS.slice 7 <$> context !! "authorization") "12345678" in
  if negb isAuthorized then throw Unauthorized
  else mret ().

(** One request through the README's application: the hook that
    [commentController] registers, then the handler of the route. *)
Definition handle (headers : JS.Object) (r : Route) : M Value :=
  authenticate headers ;;
  handler r.

End Readme.

(** ** Auxiliary notions used by the statements *)

Module Props.
Import UserModel Mongoose UserController App.

(** The invariant of the identifier generator: every stored identifier
    was handed out before. *)
Definition wf (w : World) : Prop :=
  ∀ k, is_Some (users w !! k) → k < next_oid w.

(** A field value the schema accepts: 3 to 255 characters. *)
Definition valid_length (s : string) : Prop :=
  3 ≤ N.of_nat (String.length s) ∧ N.of_nat (String.length s) ≤ 255.

(** A body value the schema rejects: missing, shorter than 3 or longer
    than 255. *)
Definition invalid_field (v : option string) : Prop :=
  match v with
  | None => True
  | Some s => N.of_nat (String.length s) < 3 ∨ 255 < N.of_nat (String.length s)
  end.

(** The request on route [r] that carries the right credential. *)
Definition with_token (r : Route) : Request :=
  {| bearer := Some secret; route := r |}.

Definition is_delete (req : Request) : bool :=
  match route req with
  | DELETE_user _ => true
  | _ => false
  end.

(** Requests on the two routes that change or remove stored documents. *)
Definition updates_or_deletes (req : Request) : bool :=
  match route req with
  | PUT_user _ _ | DELETE_user _ => true
  | _ => false
  end.

(** The number of requests of a run that were creates and succeeded. *)
Fixpoint created (reqs : list Request) (rs : list (Outcome Value)) : nat :=
  match reqs, rs with
  | req :: reqs', r :: rs' =>
      match route req, r with
      | POST_user _, Returned _ => S (created reqs' rs')
      | _, _ => created reqs' rs'
      end
  | _, _ => O
  end.

(** What one request adds to that number. *)
Definition step_created (req : Request) (r : Outcome Value) : nat :=
  match route req, r with
  | POST_user _, Returned _ => 1%nat
  | _, _ => 0%nat
  end.

(** Two bodies that agree on the three properties the handlers read. *)
Definition agree (b1 b2 : JS.Object) : Prop :=
  b1 !! "name" = b2 !! "name"
  ∧ b1 !! "email" = b2 !! "email"
  ∧ b1 !! "password" = b2 !! "password".

(** The request passes the hook of [index.ts]. *)
Definition passes (req : Request) : bool :=
  bool_decide (bearer req = Some secret).

(** The requests of a run that pass the hook, in order. *)
Fixpoint accepted (reqs : list Request) : list Request :=
  match reqs with
  | [] => []
  | req :: reqs' =>
      if passes req then req :: accepted reqs' else accepted reqs'
  end.

(** The responses of a run that went to requests passing the hook. *)
Fixpoint answers_of_accepted (reqs : list Request)
    (rs : list (Outcome Value)) : list (Outcome Value) :=
  match reqs, rs with
  | req :: reqs', r :: rs' =>
      if passes req then r :: answers_of_accepted reqs' rs'
      else answers_of_accepted reqs' rs'
  | _, _ => []
  end.

Definition is_put (req : Request) : bool :=
  match route req with
  | PUT_user _ _ => true
  | _ => false
  end.

(** Every stored document is within the bounds of the schema. *)
Definition valid_fields (f : Fields) : Prop :=
  valid_length (name f) ∧ valid_length (email f) ∧ valid_length (password f).

Definition all_valid (w : World) : Prop :=
  ∀ k f, users w !! k = Some f → valid_fields f.

(** A state used to illustrate the statements: one stored document. *)
Definition ann_world : World :=
  {| users := {[ 0 := {| name := "Ann"; email := "ann@x.com";
                         password := "secret" |} ]};
     next_oid := 1; journal := [] |}.

(** A run used to illustrate the statements: a create, a create without
    credential, a create with a short name, an update of the first
    document, and a create with a property the schema does not have. *)
Definition sample_requests : list Request :=
  [ with_token (POST_user {[ "name" := "Ann"; "email" := "ann@x.com";
                             "password" := "secret" ]});
    {| bearer := None;
       route := POST_user {[ "name" := "Eve"; "email" := "eve@x.com";
                             "password" := "hunter2" ]} |};
    with_token (POST_user {[ "name" := "Al"; "email" := "al@x.com";
                             "password" := "secret" ]});
    with_token (PUT_user "000000000000000000000000"
                  {[ "name" := "Anna"; "email" := "anna@x.com";
                     "password" := "secret" ]});
    with_token (POST_user {[ "name" := "Bob"; "email" := "bob@x.com";
                             "password" := "secret"; "admin" := "yes" ]}) ].

End Props.

(** ** Basic facts about the embedding *)

Import UserModel Mongoose UserController App Props.

Ltac unfold_m :=
  unfold handle, handler, post_user, get_user, put_user, delete_user,
    create, find, findByIdAndUpdate, findByIdAndDelete, insertOne, cast_id,
    read_users, write_users, record_call, new_ObjectId, throw,
    mbind, M_bind, mret, M_ret in *.

Lemma onBeforeHandle_accepts w :
  onBeforeHandle (Some secret) w = (Returned (), w).
Proof. reflexivity. Qed.

Lemma onBeforeHandle_rejects b w :
  b ≠ Some secret → onBeforeHandle b w = (Thrown Unauthorized, w).
Proof.
  intros Hne. unfold onBeforeHandle.
  destruct (JS.truthy b) eqn:Ht; simpl; [|done].
  destruct b as [s|]; [|done]. simpl.
  rewrite bool_decide_eq_false_2; [done|]. congruence.
Qed.

Lemma onBeforeHandle_returns_iff b w :
  (∃ u w', onBeforeHandle b w = (Returned u, w')) ↔ b = Some secret.
Proof.
  split.
  - intros (u & w' & H). destruct (decide (b = Some secret)) as [|Hne]; [done|].
    rewrite (onBeforeHandle_rejects _ _ Hne) in H. discriminate.
  - intros ->. eexists _, _. apply onBeforeHandle_accepts.
Qed.

Lemma handle_with_token r w : handle (with_token r) w = handler r w.
Proof. reflexivity. Qed.

Lemma handle_rejected req w :
  bearer req ≠ Some secret → handle req w = (Thrown Unauthorized, w).
Proof.
  intros Hne. unfold handle, mbind, M_bind.
  by rewrite (onBeforeHandle_rejects _ _ Hne).
Qed.

Lemma handle_accepted req w :
  bearer req = Some secret → handle req w = handler (route req) w.
Proof.
  intros Heq. unfold handle, mbind, M_bind.
  by rewrite Heq, onBeforeHandle_accepts.
Qed.

(** *** Validation *)

Lemma doValidate_valid s :
  valid_length s → doValidate string_3_255 (Some s) = None.
Proof.
  intros [Hlo Hhi]. unfold doValidate; simpl.
  destruct (N.eqb_spec (N.of_nat (String.length s)) 0); [lia|].
  destruct (N.ltb_spec (N.of_nat (String.length s)) 3); [lia|].
  destruct (N.ltb_spec 255 (N.of_nat (String.length s))); [lia|done].
Qed.

Lemma doValidate_invalid v :
  invalid_field v → is_Some (doValidate string_3_255 v).
Proof.
  destruct v as [s|]; simpl; [|by eexists].
  intros Hbad.
  destruct (N.eqb_spec (N.of_nat (String.length s)) 0); [by eexists|].
  destruct (N.ltb_spec (N.of_nat (String.length s)) 3); [by eexists|].
  destruct (N.ltb_spec 255 (N.of_nat (String.length s))); [by eexists|lia].
Qed.

Lemma validateSync_valid n e p :
  valid_length n → valid_length e → valid_length p →
  validateSync UserSchema (Some n) (Some e) (Some p) = [].
Proof.
  intros Hn He Hp. unfold validateSync, path_errors, UserSchema.
  cbn [name_path email_path password_path].
  by rewrite !doValidate_valid.
Qed.

Lemma validateSync_invalid n e p :
  invalid_field n ∨ invalid_field e ∨ invalid_field p →
  validateSync UserSchema n e p ≠ [].
Proof.
  unfold validateSync, path_errors, UserSchema.
  cbn [name_path email_path password_path].
  intros [H|[H|H]]; apply doValidate_invalid in H as [k Hk]; rewrite Hk;
    repeat case_match; done.
Qed.

(** Every reported error names one of the three paths of the schema. *)
Lemma validateSync_paths sch n e p path k :
  (path, k) ∈ validateSync sch n e p →
  path = "name" ∨ path = "email" ∨ path = "password".
Proof.
  unfold validateSync, path_errors. rewrite !elem_of_app.
  intros [H|[H|H]]; destruct (doValidate _ _);
    try (by apply elem_of_nil in H);
    apply list_elem_of_singleton in H; inversion H; auto.
Qed.

(** *** The documents of a collection *)

#[local] Instance to_document_inj : Inj (=) (=) to_document.
Proof. intros [i x] [j y] H. by inversion H. Qed.

Lemma elem_of_documents (m : gmap ObjectId Fields) d :
  d ∈ documents m ↔ m !! _id d = Some (fields d).
Proof.
  unfold documents. rewrite list_elem_of_fmap. split.
  - intros ([i x] & -> & Hin). by apply elem_of_map_to_list in Hin.
  - intros Hd. exists (_id d, fields d). split; [by destruct d|].
    by apply elem_of_map_to_list.
Qed.

Lemma NoDup_documents (m : gmap ObjectId Fields) : NoDup (documents m).
Proof. apply NoDup_fmap_2; [apply _|apply NoDup_map_to_list]. Qed.

Lemma length_documents (m : gmap ObjectId Fields) :
  length (documents m) = size m.
Proof. unfold documents. by rewrite length_fmap, length_map_to_list. Qed.

(** *** The handlers, as equations *)

Lemma wf_fresh w : wf w → users w !! next_oid w = None.
Proof.
  intros Hwf. destruct (users w !! next_oid w) eqn:E; [|done].
  assert (next_oid w < next_oid w) by (apply Hwf; by eexists). lia.
Qed.

Lemma post_user_valid body n e p w :
  users w !! next_oid w = None →
  body !! "name" = Some n → body !! "email" = Some e →
  body !! "password" = Some p →
  valid_length n → valid_length e → valid_length p →
  post_user body w =
    (Returned (VDoc {| _id := next_oid w;
                       fields := {| name := n; email := e; password := p |} |}),
     {| users := <[next_oid w := {| name := n; email := e; password := p |}]>
                   (users w);
        next_oid := N.succ (next_oid w);
        journal := journal w ++ [CallCreate (Some n) (Some e) (Some p)] |}).
Proof.
  intros Hfresh Hn He Hp Vn Ve Vp. unfold_m.
  rewrite Hn, He, Hp; simpl.
  rewrite validateSync_valid by done. simpl. by rewrite Hfresh.
Qed.

Lemma post_user_invalid body w :
  validateSync UserSchema (body !! "name") (body !! "email")
    (body !! "password") ≠ [] →
  post_user body w =
    (Thrown (ValidationError
       (validateSync UserSchema (body !! "name") (body !! "email")
          (body !! "password"))),
     {| users := users w;
        next_oid := N.succ (next_oid w);
        journal := journal w ++ [CallCreate (body !! "name") (body !! "email")
                                   (body !! "password")] |}).
Proof.
  intros Hne. unfold_m. simpl.
  destruct (validateSync _ _ _ _) as [|err errs]; [done|].
  by repeat case_match.
Qed.

Lemma get_user_eq w :
  get_user w =
    (Returned (VArray (documents (users w))),
     {| users := users w; next_oid := next_oid w;
        journal := journal w ++ [CallFind] |}).
Proof. reflexivity. Qed.

Lemma put_user_found id oid body old w :
  castObjectId id = Some oid → users w !! oid = Some old →
  put_user id body w =
    (Returned (VDoc {| _id := oid;
                       fields := apply_update (body !! "name") (body !! "email")
                                   (body !! "password") old |}),
     {| users := <[oid := apply_update (body !! "name") (body !! "email")
                            (body !! "password") old]> (users w);
        next_oid := next_oid w;
        journal := journal w ++ [CallFindByIdAndUpdate id (body !! "name")
                                   (body !! "email") (body !! "password")] |}).
Proof. intros Hc Hl. unfold_m. rewrite Hc. simpl. by rewrite Hl. Qed.

Lemma put_user_missing id oid body w :
  castObjectId id = Some oid → users w !! oid = None →
  put_user id body w =
    (Returned VNull,
     {| users := users w; next_oid := next_oid w;
        journal := journal w ++ [CallFindByIdAndUpdate id (body !! "name")
                                   (body !! "email") (body !! "password")] |}).
Proof. intros Hc Hl. unfold_m. rewrite Hc. simpl. by rewrite Hl. Qed.

Lemma put_user_malformed id body w :
  castObjectId id = None →
  put_user id body w =
    (Thrown (CastError id),
     {| users := users w; next_oid := next_oid w;
        journal := journal w ++ [CallFindByIdAndUpdate id (body !! "name")
                                   (body !! "email") (body !! "password")] |}).
Proof. intros Hc. unfold_m. by rewrite Hc. Qed.

Lemma delete_user_found id oid old w :
  castObjectId id = Some oid → users w !! oid = Some old →
  delete_user id w =
    (Returned (VString "User deleted"),
     {| users := delete oid (users w); next_oid := next_oid w;
        journal := journal w ++ [CallFindByIdAndDelete id] |}).
Proof. intros Hc Hl. unfold_m. rewrite Hc. simpl. by rewrite Hl. Qed.

Lemma delete_user_missing id oid w :
  castObjectId id = Some oid → users w !! oid = None →
  delete_user id w =
    (Returned (VString "User deleted"),
     {| users := users w; next_oid := next_oid w;
        journal := journal w ++ [CallFindByIdAndDelete id] |}).
Proof. intros Hc Hl. unfold_m. rewrite Hc. simpl. by rewrite Hl. Qed.

Lemma delete_user_malformed id w :
  castObjectId id = None →
  delete_user id w =
    (Thrown (CastError id),
     {| users := users w; next_oid := next_oid w;
        journal := journal w ++ [CallFindByIdAndDelete id] |}).
Proof. intros Hc. unfold_m. by rewrite Hc. Qed.

(** A create either stores one document under the identifier drawn from
    the generator, or throws and leaves the collection as it was. *)
Lemma post_user_cases body w :
  users w !! next_oid w = None →
  (∃ f, post_user body w =
          (Returned (VDoc {| _id := next_oid w; fields := f |}),
           {| users := <[next_oid w := f]> (users w);
              next_oid := N.succ (next_oid w);
              journal := journal w ++ [CallCreate (body !! "name")
                                         (body !! "email")
                                         (body !! "password")] |}))
  ∨ (∃ e, post_user body w =
          (Thrown e,
           {| users := users w;
              next_oid := N.succ (next_oid w);
              journal := journal w ++ [CallCreate (body !! "name")
                                         (body !! "email")
                                         (body !! "password")] |})).
Proof.
  intros Hfresh. unfold_m. simpl.
  destruct (validateSync _ _ _ _) as [|err errs];
    [|right; eexists; by repeat case_match].
  destruct (body !! "name"), (body !! "email"), (body !! "password");
    try (right; by eexists).
  left. simpl. rewrite Hfresh. by eexists.
Qed.

(** *** The generator invariant *)

Lemma wf_empty_world : wf empty_world.
Proof. intros k [x Hk]. simpl in Hk. by rewrite lookup_empty in Hk. Qed.

Lemma handler_wf r w : wf w → wf (handler r w).2.
Proof.
  intros Hwf. destruct r as [body| |id body|id]; cbn [handler].
  - destruct (post_user_cases body w (wf_fresh _ Hwf)) as [[f ->]|[e ->]];
      simpl; intros k [x Hk]; simpl in *.
    + destruct (decide (k = next_oid w)) as [->|Hne]; [lia|].
      rewrite lookup_insert_ne in Hk by done.
      assert (k < next_oid w) by (apply Hwf; by eexists). lia.
    + assert (k < next_oid w) by (apply Hwf; by eexists). lia.
  - rewrite get_user_eq. simpl. intros k Hk. by apply Hwf.
  - destruct (castObjectId id) as [oid|] eqn:Hc;
      [|rewrite put_user_malformed by done; intros k Hk; by apply Hwf].
    destruct (users w !! oid) as [old|] eqn:Hl;
      [|erewrite put_user_missing by done; intros k Hk; by apply Hwf].
    erewrite put_user_found by done. intros k [x Hk]; simpl in *.
    destruct (decide (k = oid)) as [->|Hne]; [apply Hwf; by eexists|].
    rewrite lookup_insert_ne in Hk by done. apply Hwf; by eexists.
  - destruct (castObjectId id) as [oid|] eqn:Hc;
      [|rewrite delete_user_malformed by done; intros k Hk; by apply Hwf].
    destruct (users w !! oid) as [old|] eqn:Hl;
      [|erewrite delete_user_missing by done; intros k Hk; by apply Hwf].
    erewrite delete_user_found by done. intros k [x Hk]; simpl in *.
    apply lookup_delete_Some in Hk as [_ Hk]. apply Hwf; by eexists.
Qed.

Lemma handle_wf req w : wf w → wf (handle req w).2.
Proof.
  intros Hwf. destruct (decide (bearer req = Some secret)) as [Heq|Hne].
  - rewrite handle_accepted by done. by apply handler_wf.
  - by rewrite handle_rejected.
Qed.

Lemma serve_wf reqs : ∀ w, wf w → wf (serve reqs w).2.
Proof.
  induction reqs as [|req reqs IH]; intros w Hwf; simpl; [done|].
  pose proof (handle_wf req w Hwf) as Hw'.
  destruct (handle req w) as [r w'].
  specialize (IH w' Hw'). by destruct (serve reqs w') as [rs w''].
Qed.

(** Every state reached from the empty one satisfies the invariant. *)
Lemma reachable_wf reqs : wf (serve reqs empty_world).2.
Proof. apply serve_wf, wf_empty_world. Qed.

(** Creates and lists leave the stored documents as they are. *)
Lemma handle_keeps req w k f :
  wf w → updates_or_deletes req = false →
  users w !! k = Some f → users (handle req w).2 !! k = Some f.
Proof.
  intros Hwf Hro Hk.
  destruct (decide (bearer req = Some secret)) as [Heq|Hne];
    [|by rewrite handle_rejected].
  rewrite handle_accepted by done. unfold updates_or_deletes in Hro.
  destruct (route req) as [body| |id body|id]; [| |done|done];
    cbn [handler].
  - destruct (post_user_cases body w (wf_fresh _ Hwf)) as [[f' ->]|[e ->]];
      simpl; [|done].
    rewrite lookup_insert_ne; [done|].
    intros <-. by rewrite (wf_fresh _ Hwf) in Hk.
  - by rewrite get_user_eq.
Qed.

Lemma serve_keeps reqs : ∀ w k f,
  wf w → Forall (λ req, updates_or_deletes req = false) reqs →
  users w !! k = Some f → users (serve reqs w).2 !! k = Some f.
Proof.
  induction reqs as [|req reqs IH]; intros w k f Hwf Hro Hk; [done|].
  apply Forall_cons in Hro as [Hreq Hro].
  pose proof (handle_wf req w Hwf) as Hw'.
  pose proof (handle_keeps req w k f Hwf Hreq Hk) as Hk'.
  cbn [serve]. destruct (handle req w) as [r w'].
  specialize (IH w' k f Hw' Hro Hk'). by destruct (serve reqs w') as [rs w''].
Qed.

(** *** Counting creates *)

Lemma created_cons req reqs r rs :
  created (req :: reqs) (r :: rs) = (step_created req r + created reqs rs)%nat.
Proof.
  unfold step_created. simpl.
  destruct (route req); try done. by destruct r.
Qed.

Lemma handle_size req w :
  wf w → is_delete req = false →
  size (users (handle req w).2)
  = (size (users w) + step_created req (handle req w).1)%nat.
Proof.
  intros Hwf Hnd. unfold step_created.
  destruct (decide (bearer req = Some secret)) as [Heq|Hne];
    [|rewrite handle_rejected by done; simpl; by destruct (route req)].
  rewrite handle_accepted by done. unfold is_delete in Hnd.
  destruct (route req) as [body| |id body|id]; [| | |done]; cbn [handler].
  - destruct (post_user_cases body w (wf_fresh _ Hwf)) as [[f ->]|[e ->]];
      simpl; [|lia].
    rewrite map_size_insert_None by by apply wf_fresh. lia.
  - rewrite get_user_eq. simpl. lia.
  - destruct (castObjectId id) as [oid|] eqn:Hc;
      [|rewrite put_user_malformed by done; simpl; lia].
    destruct (users w !! oid) as [old|] eqn:Hl;
      [|erewrite put_user_missing by done; simpl; lia].
    erewrite put_user_found by done. simpl.
    rewrite map_size_insert_Some by by eexists. lia.
Qed.

Lemma serve_size reqs : ∀ w,
  wf w → Forall (λ req, is_delete req = false) reqs →
  size (users (serve reqs w).2)
  = (size (users w) + created reqs (serve reqs w).1)%nat.
Proof.
  induction reqs as [|req reqs IH]; intros w Hwf Hnd; [simpl; lia|].
  apply Forall_cons in Hnd as [Hreq Hnd].
  pose proof (handle_wf req w Hwf) as Hw'.
  pose proof (handle_size req w Hwf Hreq) as Hsz.
  cbn [serve]. destruct (handle req w) as [r w'].
  specialize (IH w' Hw' Hnd). destruct (serve reqs w') as [rs w''].
  cbn [fst snd] in *. rewrite created_cons. lia.
Qed.

(** ** The properties of the specification *)

(** C1: a request whose bearer credential is absent or differs from the
    fixed secret is answered [Unauthorized] and leaves the whole state as
    it was: the collection, the identifier generator and the journal of
    persistence calls, so no handler ran.  The hook lets a request through
    exactly when its bearer equals the secret, and then the handler of the
    route runs. *)
Theorem bearer_gate (req : Request) (w : World) :
  (bearer req ≠ Some secret → handle req w = (Thrown Unauthorized, w))
  ∧ ((∃ u w', onBeforeHandle (bearer req) w = (Returned u, w'))
     ↔ bearer req = Some secret)
  ∧ (bearer req = Some secret →
     handle req w = handler (route req) w
     ∧ journal (handle req w).2 ≠ journal w).
Proof.
  split; [apply handle_rejected|].
  split; [apply onBeforeHandle_returns_iff|].
  intros Heq. split; [by apply handle_accepted|].
  rewrite handle_accepted by done.
  assert (∀ (l : list Call) c, (l ++ [c])%list ≠ l) as Hgrow.
  { intros l c H. apply (f_equal length) in H.
    rewrite length_app in H. simpl in H. lia. }
  destruct (route req) as [body| |id body|id]; cbn [handler].
  - unfold_m. simpl.
    destruct (validateSync _ _ _ _); repeat case_match;
      simplify_eq; simpl; apply Hgrow.
  - rewrite get_user_eq. apply Hgrow.
  - unfold_m. simpl. repeat case_match; simplify_eq; simpl; apply Hgrow.
  - unfold_m. simpl. repeat case_match; simplify_eq; simpl; apply Hgrow.
Qed.

Lemma bearer_gate_witness :
  handle {| bearer := None; route := POST_user ∅ |} empty_world
    = (Thrown Unauthorized, empty_world)
  ∧ handle {| bearer := Some "1234567"; route := DELETE_user "abc" |} empty_world
    = (Thrown Unauthorized, empty_world)
  ∧ journal (handle {| bearer := Some "12345678"; route := GET_user |}
               empty_world).2 ≠ journal empty_world.
Proof.
  split; [|split].
  - by apply (proj1 (bearer_gate {| bearer := None; route := POST_user ∅ |}
                       empty_world)).
  - by apply (proj1 (bearer_gate {| bearer := Some "1234567";
                                    route := DELETE_user "abc" |}
                       empty_world)).
  - by apply (proj2 (proj2 (bearer_gate {| bearer := Some "12345678";
                                           route := GET_user |}
                              empty_world))).
Defined.

(** C2: an authorised [POST /user] whose body has [name], [email] and
    [password], each of 3 to 255 characters, returns a document with
    exactly these three values and an identifier that no stored document
    had; the collection gains this document and nothing else, and the list
    operation returns it from then on: right away, and after any further
    requests that are not updates or deletes. *)
Theorem create_valid (body : JS.Object) (n e p : string) (w : World) :
  wf w →
  body !! "name" = Some n → body !! "email" = Some e →
  body !! "password" = Some p →
  valid_length n → valid_length e → valid_length p →
  ∃ id w',
    let d := {| _id := id;
                fields := {| name := n; email := e; password := p |} |} in
    handle (with_token (POST_user body)) w = (Returned (VDoc d), w')
    ∧ users w !! id = None
    ∧ users w' = <[id := fields d]> (users w)
    ∧ wf w'
    ∧ ∀ reqs,
        Forall (λ req, updates_or_deletes req = false) reqs →
        ∃ ds w'',
          handle (with_token GET_user) (serve reqs w').2
            = (Returned (VArray ds), w'')
          ∧ d ∈ ds.
Proof.
  intros Hwf Hn He Hp Vn Ve Vp.
  pose proof (wf_fresh _ Hwf) as Hfresh.
  pose proof (handle_wf (with_token (POST_user body)) w Hwf) as Hwf'.
  rewrite handle_with_token in Hwf'. cbn [handler] in Hwf'.
  rewrite (post_user_valid body n e p w) in Hwf' by done.
  eexists (next_oid w), _. cbn zeta.
  rewrite !handle_with_token. cbn [handler].
  rewrite (post_user_valid body n e p w) by done.
  split; [reflexivity|]. split; [done|]. split; [done|]. split; [done|].
  intros reqs Hro. eexists _, _. rewrite handle_with_token. cbn [handler].
  rewrite get_user_eq. split; [reflexivity|].
  apply elem_of_documents. cbn [_id fields].
  apply serve_keeps; [done|done|]. simpl. apply lookup_insert_eq.
Qed.

Lemma create_valid_witness :
  ∃ id w',
    handle (with_token (POST_user
              {[ "name" := "Ann"; "email" := "ann@x.com";
                 "password" := "secret" ]})) empty_world
      = (Returned (VDoc {| _id := id;
                           fields := {| name := "Ann"; email := "ann@x.com";
                                        password := "secret" |} |}), w')
    ∧ ∃ ds w'',
        handle (with_token GET_user) w' = (Returned (VArray ds), w'')
        ∧ {| _id := id;
             fields := {| name := "Ann"; email := "ann@x.com";
                          password := "secret" |} |} ∈ ds.
Proof.
  destruct (create_valid
              {[ "name" := "Ann"; "email" := "ann@x.com";
                 "password" := "secret" ]}
              "Ann" "ann@x.com" "secret" empty_world)
    as (id & w' & Hpost & _ & _ & _ & Hlist).
  - apply wf_empty_world.
  - reflexivity.
  - reflexivity.
  - reflexivity.
  - unfold valid_length; simpl; lia.
  - unfold valid_length; simpl; lia.
  - unfold valid_length; simpl; lia.
  - exists id, w'. split; [exact Hpost|].
    destruct (Hlist []) as (ds & w'' & Hget & Hin); [constructor|].
    exists ds, w''. by split.
Defined.

(** C3: an authorised [POST /user] in which [name], [email] or [password]
    is missing, shorter than 3 or longer than 255 characters throws a
    validation error that lists the failing paths (at least one, each a
    path of the schema), and the collection is unchanged. *)
Theorem create_invalid (body : JS.Object) (w : World) :
  invalid_field (body !! "name") ∨ invalid_field (body !! "email")
    ∨ invalid_field (body !! "password") →
  ∃ errs w',
    handle (with_token (POST_user body)) w = (Thrown (ValidationError errs), w')
    ∧ errs = validateSync UserSchema (body !! "name") (body !! "email")
               (body !! "password")
    ∧ errs ≠ []
    ∧ (∀ path k, (path, k) ∈ errs →
         path = "name" ∨ path = "email" ∨ path = "password")
    ∧ users w' = users w.
Proof.
  intros Hbad. apply validateSync_invalid in Hbad.
  eexists _, _. rewrite handle_with_token. cbn [handler].
  rewrite post_user_invalid by done.
  split; [reflexivity|]. split; [reflexivity|]. split; [done|].
  split; [|done]. intros path k. apply validateSync_paths.
Qed.

Lemma create_invalid_witness :
  ∃ errs w',
    handle (with_token (POST_user {[ "name" := "Al"; "email" := "ann@x.com" ]}))
      {| users := {[ 0 := {| name := "Ann"; email := "ann@x.com";
                             password := "secret" |} ]};
         next_oid := 1; journal := [] |}
      = (Thrown (ValidationError errs), w')
    ∧ errs = [("name", KMinlength); ("password", KRequired)]
    ∧ users w' = {[ 0 := {| name := "Ann"; email := "ann@x.com";
                            password := "secret" |} ]}.
Proof.
  destruct (create_invalid {[ "name" := "Al"; "email" := "ann@x.com" ]}
              {| users := {[ 0 := {| name := "Ann"; email := "ann@x.com";
                                     password := "secret" |} ]};
                 next_oid := 1; journal := [] |})
    as (errs & w' & Hpost & Herrs & _ & _ & Husers).
  - left. vm_compute. left. reflexivity.
  - exists errs, w'. split; [exact Hpost|]. split; [|exact Husers].
    rewrite Herrs. reflexivity.
Defined.

(** C4: in every state the list operation returns exactly the stored
    documents, each once, and stores nothing; when the state was reached
    from the empty collection by requests none of which is a delete, the
    number of documents listed is the number of creates that succeeded. *)
Theorem list_exact (w : World) :
  ∃ ds w',
    handle (with_token GET_user) w = (Returned (VArray ds), w')
    ∧ users w' = users w
    ∧ (∀ d, d ∈ ds ↔ users w !! _id d = Some (fields d))
    ∧ NoDup ds
    ∧ (∀ reqs rs,
         Forall (λ req, is_delete req = false) reqs →
         serve reqs empty_world = (rs, w) →
         length ds = created reqs rs).
Proof.
  eexists _, _. rewrite handle_with_token. cbn [handler].
  rewrite get_user_eq. split; [reflexivity|]. split; [done|].
  split; [apply elem_of_documents|]. split; [apply NoDup_documents|].
  intros reqs rs Hnd Hserve. rewrite length_documents.
  pose proof (serve_size reqs empty_world wf_empty_world Hnd) as Hsz.
  rewrite Hserve in Hsz. simpl in Hsz. by rewrite map_size_empty in Hsz.
Qed.

Lemma list_exact_witness :
  ∃ ds w',
    handle (with_token GET_user) (serve sample_requests empty_world).2
      = (Returned (VArray ds), w')
    ∧ length ds = 2%nat.
Proof.
  destruct (list_exact (serve sample_requests empty_world).2)
    as (ds & w' & Hget & _ & _ & _ & Hcount).
  exists ds, w'. split; [exact Hget|].
  rewrite (Hcount sample_requests (serve sample_requests empty_world).1).
  - vm_compute. reflexivity.
  - repeat constructor.
  - apply surjective_pairing.
Defined.

(** C5: an authorised [PUT /user/:id] whose identifier designates a stored
    document, with a body that has [name], [email] and [password], stores
    these three values in that document (no length is checked), returns
    the document with exactly them, and leaves every other document alone;
    the list operation that follows shows the document with the new
    values and the others as they were. *)
Theorem update_existing (id : string) (oid : ObjectId) (body : JS.Object)
    (n e p : string) (old : Fields) (w : World) :
  castObjectId id = Some oid → users w !! oid = Some old →
  body !! "name" = Some n → body !! "email" = Some e →
  body !! "password" = Some p →
  ∃ w',
    let d := {| _id := oid;
                fields := {| name := n; email := e; password := p |} |} in
    handle (with_token (PUT_user id body)) w = (Returned (VDoc d), w')
    ∧ users w' = <[oid := fields d]> (users w)
    ∧ ∃ ds w'',
        handle (with_token GET_user) w' = (Returned (VArray ds), w'')
        ∧ d ∈ ds
        ∧ (∀ d', d' ∈ ds → _id d' = oid → d' = d)
        ∧ (∀ d', _id d' ≠ oid →
             d' ∈ ds ↔ users w !! _id d' = Some (fields d')).
Proof.
  intros Hc Hl Hn He Hp. eexists. cbn zeta.
  rewrite !handle_with_token. cbn [handler].
  erewrite put_user_found by done. rewrite Hn, He, Hp.
  unfold apply_update; cbn [default].
  split; [reflexivity|]. split; [done|].
  eexists _, _. rewrite get_user_eq. split; [reflexivity|]. simpl.
  split; [|split].
  - apply elem_of_documents. simpl. apply lookup_insert_eq.
  - intros [i f] Hin Hi. simpl in Hi. subst i.
    apply elem_of_documents in Hin. simpl in Hin.
    rewrite lookup_insert_eq in Hin. by inversion Hin.
  - intros d' Hne. rewrite elem_of_documents.
    by rewrite lookup_insert_ne.
Qed.

Lemma update_existing_witness :
  ∃ w' ds w'',
    handle (with_token (PUT_user "000000000000000000000000"
              {[ "name" := "Al"; "email" := "a"; "password" := "pw" ]}))
      {| users := {[ 0 := {| name := "Ann"; email := "ann@x.com";
                             password := "secret" |} ]};
         next_oid := 1; journal := [] |}
      = (Returned (VDoc {| _id := 0;
                           fields := {| name := "Al"; email := "a";
                                        password := "pw" |} |}), w')
    ∧ handle (with_token GET_user) w' = (Returned (VArray ds), w'')
    ∧ {| _id := 0;
         fields := {| name := "Al"; email := "a"; password := "pw" |} |} ∈ ds.
Proof.
  destruct (update_existing "000000000000000000000000" 0
              {[ "name" := "Al"; "email" := "a"; "password" := "pw" ]}
              "Al" "a" "pw"
              {| name := "Ann"; email := "ann@x.com"; password := "secret" |}
              {| users := {[ 0 := {| name := "Ann"; email := "ann@x.com";
                                     password := "secret" |} ]};
                 next_oid := 1; journal := [] |})
    as (w' & Hput & _ & ds & w'' & Hget & Hin & _).
  - reflexivity.
  - reflexivity.
  - reflexivity.
  - reflexivity.
  - reflexivity.
  - exists w', ds, w''. by repeat split.
Defined.

(** C6, as the specification states it, fails: the identifier [abc],
    which no driver casts to an [ObjectId], designates no stored document,
    and the update then throws a cast error instead of returning
    [null]. *)
Lemma update_malformed_id_throws :
  (∀ oid, castObjectId "abc" = Some oid → users empty_world !! oid = None)
  ∧ (handle (with_token (PUT_user "abc"
               {[ "name" := "Ann"; "email" := "ann@x.com";
                  "password" := "secret" ]})) empty_world).1
    = Thrown (CastError "abc")
  ∧ (handle (with_token (PUT_user "abc"
               {[ "name" := "Ann"; "email" := "ann@x.com";
                  "password" := "secret" ]})) empty_world).1
    ≠ Returned VNull.
Proof. split; [|split]; [intros oid H; discriminate H|reflexivity|discriminate]. Qed.

(** C6, amended: an authorised [PUT /user/:id] whose identifier is a
    well-formed [ObjectId], a string of 24 hexadecimal digits, and
    designates no stored document yields [null], not an error; no document
    is created and the collection is unchanged. *)
Theorem update_missing (id : string) (oid : ObjectId) (body : JS.Object)
    (w : World) :
  castObjectId id = Some oid → users w !! oid = None →
  ∃ w',
    handle (with_token (PUT_user id body)) w = (Returned VNull, w')
    ∧ users w' = users w.
Proof.
  intros Hc Hl. rewrite handle_with_token. cbn [handler].
  erewrite put_user_missing by done. by eexists.
Qed.

Lemma update_missing_witness :
  ∃ w',
    handle (with_token (PUT_user "0000000000000000000000ff"
              {[ "name" := "Ann"; "email" := "ann@x.com";
                 "password" := "secret" ]})) ann_world
      = (Returned VNull, w')
    ∧ users w' = users ann_world.
Proof.
  apply (update_missing "0000000000000000000000ff" 255
           {[ "name" := "Ann"; "email" := "ann@x.com";
              "password" := "secret" ]} ann_world).
  - reflexivity.
  - reflexivity.
Defined.

(** C7: an authorised [DELETE /user/:id] run a second time changes
    neither the collection nor the identifier generator and answers as the
    first time, so two deletes leave the collection that one leaves.  When
    the identifier designates a stored document, the first delete removes
    that document and no other, both deletes answer [User deleted], and
    the list operation afterwards shows the other documents unchanged. *)
Theorem delete_idempotent (id : string) (w : World) :
  users (handle (with_token (DELETE_user id))
           (handle (with_token (DELETE_user id)) w).2).2
    = users (handle (with_token (DELETE_user id)) w).2
  ∧ next_oid (handle (with_token (DELETE_user id))
                (handle (with_token (DELETE_user id)) w).2).2
    = next_oid (handle (with_token (DELETE_user id)) w).2
  ∧ (handle (with_token (DELETE_user id))
       (handle (with_token (DELETE_user id)) w).2).1
    = (handle (with_token (DELETE_user id)) w).1
  ∧ (∀ oid old,
       castObjectId id = Some oid → users w !! oid = Some old →
       (handle (with_token (DELETE_user id)) w).1
         = Returned (VString "User deleted")
       ∧ users (handle (with_token (DELETE_user id)) w).2
         = delete oid (users w)
       ∧ ∃ ds w',
           handle (with_token GET_user)
             (handle (with_token (DELETE_user id)) w).2
             = (Returned (VArray ds), w')
           ∧ (∀ d, d ∈ ds ↔
                users w !! _id d = Some (fields d) ∧ _id d ≠ oid)).
Proof.
  rewrite !handle_with_token. cbn [handler].
  destruct (castObjectId id) as [oid|] eqn:Hc.
  - destruct (users w !! oid) as [old|] eqn:Hl.
    + rewrite (delete_user_found id oid old w) by done. cbn [fst snd].
      erewrite delete_user_missing by (try done; apply lookup_delete_eq).
      split; [done|]. split; [done|]. split; [done|].
      intros oid' old' Hoid' _. simplify_eq.
      split; [done|]. split; [done|].
      eexists _, _. rewrite get_user_eq. split; [reflexivity|].
      intros d. rewrite elem_of_documents. simpl.
      rewrite lookup_delete_Some.
      split; intros [? ?]; split; congruence.
    + rewrite (delete_user_missing id oid w) by done. cbn [fst snd].
      erewrite delete_user_missing by done.
      split; [done|]. split; [done|]. split; [done|].
      intros oid' old' Hoid' Hl'. simplify_eq.
  - rewrite (delete_user_malformed id w) by done. cbn [fst snd].
    rewrite delete_user_malformed by done.
    split; [done|]. split; [done|]. split; [done|].
    intros oid' old' Hoid'. discriminate.
Qed.

Lemma delete_idempotent_witness :
  (handle (with_token (DELETE_user "000000000000000000000000"))
     {| users := {[ 0 := {| name := "Ann"; email := "ann@x.com";
                            password := "secret" |};
                    1 := {| name := "Bob"; email := "bob@x.com";
                            password := "secret" |} ]};
        next_oid := 2; journal := [] |}).1
    = Returned (VString "User deleted")
  ∧ users (handle (with_token (DELETE_user "000000000000000000000000"))
        {| users := {[ 0 := {| name := "Ann"; email := "ann@x.com";
                               password := "secret" |};
                       1 := {| name := "Bob"; email := "bob@x.com";
                               password := "secret" |} ]};
           next_oid := 2; journal := [] |}).2
    = delete 0 {[ 0 := {| name := "Ann"; email := "ann@x.com";
                          password := "secret" |};
                  1 := {| name := "Bob"; email := "bob@x.com";
                          password := "secret" |} ]}.
Proof.
  destruct (delete_idempotent "000000000000000000000000"
        {| users := {[ 0 := {| name := "Ann"; email := "ann@x.com";
                               password := "secret" |};
                       1 := {| name := "Bob"; email := "bob@x.com";
                               password := "secret" |} ]};
           next_oid := 2; journal := [] |})
    as (_ & _ & _ & Hfound).
  destruct (Hfound 0 {| name := "Ann"; email := "ann@x.com";
                        password := "secret" |})
    as (Hr & Husers & _).
  - reflexivity.
  - reflexivity.
  - split; [exact Hr|exact Husers].
Defined.

(** C8: when the connection attempt fails, the only event of start-up is
    the log of the failure, and no listener is started; a listener is
    started only when the connection attempt succeeded, and after the log
    line that reports the connection. *)
Theorem listen_after_connect (env : JS.Object) (connect listen : Settled) :
  (∀ err, connect = Rejected err →
     main env connect listen = [ConsoleLog err]
     ∧ ∀ p, Listen p ∉ main env connect listen)
  ∧ (∀ p, Listen p ∈ main env connect listen →
       connect = Fulfilled
       ∧ ∃ rest, main env connect listen
                 = ConsoleLog "Connected to MongoDB" :: Listen p :: rest).
Proof.
  split.
  - intros err ->. split; [done|]. intros p Hin. simpl in Hin.
    apply list_elem_of_singleton in Hin. discriminate.
  - intros p Hin. destruct connect as [|err]; simpl in Hin.
    + split; [done|]. destruct listen as [|err]; simpl in *.
      * apply elem_of_cons in Hin as [Hin|Hin]; [discriminate|].
        apply elem_of_cons in Hin as [Hin|Hin];
          [inversion Hin; by eexists|].
        apply list_elem_of_singleton in Hin. discriminate.
      * apply elem_of_cons in Hin as [Hin|Hin]; [discriminate|].
        apply list_elem_of_singleton in Hin. discriminate.
    + apply list_elem_of_singleton in Hin. discriminate.
Qed.

Lemma listen_after_connect_witness :
  main ∅ (Rejected "ECONNREFUSED") Fulfilled = [ConsoleLog "ECONNREFUSED"]
  ∧ ∀ p, Listen p ∉ main ∅ (Rejected "ECONNREFUSED") Fulfilled.
Proof.
  apply (proj1 (listen_after_connect ∅ (Rejected "ECONNREFUSED") Fulfilled)
           "ECONNREFUSED").
  reflexivity.
Defined.

(** C9, as the specification states it, fails: with [PORT] set to the
    empty string the port is the default, not the value of the
    variable. *)
Lemma port_empty_string_is_default :
  ({[ "PORT" := "" ]} : JS.Object) !! "PORT" = Some ""
  ∧ PORT {[ "PORT" := "" ]} = PortNumber 4001
  ∧ PORT {[ "PORT" := "" ]} ≠ PortString "".
Proof. split; [|split]; [reflexivity|reflexivity|discriminate]. Qed.

(** C9, amended: the port is the value of [PORT] when that variable is
    set to a non-empty string, and the default 4001 when it is unset or
    set to the empty string; a listener is started on no other port. *)
Theorem port_selection (env : JS.Object) :
  (∀ s, env !! "PORT" = Some s → s ≠ "" → PORT env = PortString s)
  ∧ (env !! "PORT" = None → PORT env = PortNumber 4001)
  ∧ (env !! "PORT" = Some "" → PORT env = PortNumber 4001)
  ∧ (∀ connect listen p,
       Listen p ∈ main env connect listen → p = PORT env).
Proof.
  split; [|split; [|split]].
  - unfold PORT, JS.or, JS.truthy_string.
    intros s -> Hne. by rewrite bool_decide_eq_false_2.
  - unfold PORT, JS.or. by intros ->.
  - unfold PORT, JS.or. by intros ->.
  - intros connect listen p Hin.
    destruct connect, listen; simpl in Hin;
      repeat (apply elem_of_cons in Hin as [Hin|Hin];
              [by inversion Hin|]);
      by apply elem_of_nil in Hin.
Qed.

Lemma port_selection_witness :
  PORT {[ "PORT" := "8080"; "HOME" := "/root" ]} = PortString "8080".
Proof.
  apply (proj1 (port_selection {[ "PORT" := "8080"; "HOME" := "/root" ]})).
  - reflexivity.
  - discriminate.
Defined.

(** C10: two creates whose bodies agree on [name], [email] and
    [password] are the same computation, whatever else the bodies hold:
    run in the same state they give the same response and the same state.
    Run in two states, both fail with the same error and store nothing, or
    both succeed, return documents with the same three fields and store
    exactly that document under its new identifier. *)
Theorem create_reads_three_fields (b1 b2 : JS.Object) :
  agree b1 b2 →
  post_user b1 = post_user b2
  ∧ (∀ t w,
       handle {| bearer := t; route := POST_user b1 |} w
       = handle {| bearer := t; route := POST_user b2 |} w)
  ∧ (∀ w1 w2, wf w1 → wf w2 →
       (∃ e w1' w2',
          post_user b1 w1 = (Thrown e, w1')
          ∧ post_user b2 w2 = (Thrown e, w2')
          ∧ users w1' = users w1 ∧ users w2' = users w2)
       ∨ (∃ d1 d2 w1' w2',
            post_user b1 w1 = (Returned (VDoc d1), w1')
            ∧ post_user b2 w2 = (Returned (VDoc d2), w2')
            ∧ fields d1 = fields d2
            ∧ users w1 !! _id d1 = None ∧ users w2 !! _id d2 = None
            ∧ users w1' = <[_id d1 := fields d1]> (users w1)
            ∧ users w2' = <[_id d2 := fields d2]> (users w2))).
Proof.
  intros (Hn & He & Hp).
  assert (post_user b1 = post_user b2) as Heq.
  { unfold post_user. by rewrite Hn, He, Hp. }
  split; [done|]. split.
  { intros t w. unfold handle. cbn [route handler]. by rewrite Heq. }
  intros w1 w2 Hwf1 Hwf2. rewrite <- Heq. clear Heq.
  pose proof (wf_fresh _ Hwf1) as Hf1. pose proof (wf_fresh _ Hwf2) as Hf2.
  unfold_m. simpl.
  destruct (validateSync UserSchema (b1 !! "name") (b1 !! "email")
              (b1 !! "password")) as [|err errs].
  - destruct (b1 !! "name") as [n|], (b1 !! "email") as [e|],
      (b1 !! "password") as [p|];
      try (left; eexists _, _, _; by repeat split).
    right. simpl. rewrite Hf1, Hf2. eexists _, _, _, _. by repeat split.
  - left. eexists _, _, _.
    split; [by repeat case_match|]. split; [by repeat case_match|]. done.
Qed.

Lemma create_reads_three_fields_witness :
  post_user {[ "name" := "Ann"; "email" := "ann@x.com";
               "password" := "secret" ]}
  = post_user {[ "name" := "Ann"; "email" := "ann@x.com";
                 "password" := "secret"; "admin" := "yes"; "_id" := "7" ]}.
Proof.
  apply (create_reads_three_fields
           {[ "name" := "Ann"; "email" := "ann@x.com";
              "password" := "secret" ]}
           {[ "name" := "Ann"; "email" := "ann@x.com";
              "password" := "secret"; "admin" := "yes"; "_id" := "7" ]}).
  repeat split; reflexivity.
Defined.

(** ** Further properties of the code *)

(** *** The header check of the README *)

Lemma slice_app pre t : JS.slice (String.length pre) (pre +:+ t) = t.
Proof. induction pre as [|c pre IH]; simpl; [by destruct t|done]. Qed.

Lemma slice_inv n : ∀ s t,
  JS.slice n s = t → t ≠ "" →
  ∃ pre, String.length pre = n ∧ s = pre +:+ t.
Proof.
  induction n as [|n IH]; intros s t Hs Hne.
  - exists "". split; [done|]. by destruct s.
  - destruct s as [|c rest]; simpl in Hs; [congruence|].
    destruct (IH rest t Hs Hne) as (pre & Hlen & ->).
    exists (String c pre). simpl. by rewrite Hlen.
Qed.

Lemma authenticate_cases context w :
  Readme.authenticate context w
  = if JS.strict_eq (JS.slice 7 <$> context !! "authorization") secret
    then (Returned (), w) else (Thrown Unauthorized, w).
Proof.
  unfold Readme.authenticate, secret.
  by destruct (JS.strict_eq _ _).
Qed.

(** X1: the header check of the README never changes the state, and it
    lets a request through exactly when the [authorization] header is
    seven characters, whatever they are, followed by the secret. *)
Theorem authenticate_accepts_iff (context : JS.Object) (w : World) :
  (Readme.authenticate context w = (Returned (), w)
   ∨ Readme.authenticate context w = (Thrown Unauthorized, w))
  ∧ (Readme.authenticate context w = (Returned (), w)
     ↔ ∃ pre, String.length pre = 7%nat
              ∧ context !! "authorization" = Some (pre +:+ "12345678")).
Proof.
  rewrite authenticate_cases.
  destruct (context !! "authorization") as [h|] eqn:Hh;
    cbn [fmap option_fmap option_map JS.strict_eq].
  - destruct (bool_decide_reflect (JS.slice 7 h = secret)) as [Heq|Hne].
    + split; [by left|]. split; [intros _|done].
      destruct (slice_inv 7 h secret Heq) as (pre & Hlen & ->); [done|].
      by exists pre.
    + split; [by right|]. split; [done|].
      intros (pre & Hlen & Hpre). inversion Hpre; subst h.
      destruct Hne. rewrite <- Hlen. apply slice_app.
  - split; [by right|]. split; [done|]. by intros (pre & _ & ?).
Qed.

(** X2: on a header [Bearer t] the server of the README answers every
    request as the server of [index.ts] answers it with bearer [t]. *)
Theorem readme_agrees_on_bearer (headers : JS.Object) (t : string)
    (r : Route) (w : World) :
  headers !! "authorization" = Some ("Bearer " +:+ t) →
  Readme.handle headers r w = handle {| bearer := Some t; route := r |} w.
Proof.
  intros Hh. unfold Readme.handle, handle, mbind, M_bind. cbn [bearer route].
  rewrite authenticate_cases, Hh.
  cbn [fmap option_fmap option_map JS.strict_eq].
  change (JS.slice 7 ("Bearer " +:+ t)) with t.
  unfold onBeforeHandle, JS.truthy, JS.truthy_string, JS.strict_eq.
  destruct (bool_decide_reflect (t = "")) as [->|Hne]; [reflexivity|].
  cbn [negb]. by destruct (bool_decide (t = secret)).
Qed.

Lemma readme_agrees_on_bearer_witness :
  Readme.handle {[ "authorization" := "Bearer 12345678" ]} GET_user empty_world
  = handle {| bearer := Some "12345678"; route := GET_user |} empty_world.
Proof.
  apply (readme_agrees_on_bearer {[ "authorization" := "Bearer 12345678" ]}
           "12345678" GET_user empty_world).
  reflexivity.
Defined.

(** *** Failures *)

Lemma handler_thrown_users r w e :
  (handler r w).1 = Thrown e → users (handler r w).2 = users w.
Proof.
  destruct r as [body| |id body|id]; cbn [handler].
  - unfold_m. simpl.
    destruct (validateSync _ _ _ _); repeat case_match; by simplify_eq.
  - by rewrite get_user_eq.
  - unfold_m. simpl. repeat case_match; by simplify_eq.
  - unfold_m. simpl. repeat case_match; by simplify_eq.
Qed.

Lemma doValidate_required_None : doValidate string_3_255 None = Some KRequired.
Proof. reflexivity. Qed.

(** A document that passes the validators of [UserSchema] has its three
    fields. *)
Lemma validateSync_nil_inv n e p :
  validateSync UserSchema n e p = [] →
  ∃ n' e' p', n = Some n' ∧ e = Some e' ∧ p = Some p'.
Proof.
  unfold validateSync, path_errors, UserSchema.
  cbn [name_path email_path password_path].
  destruct n as [n'|]; [|by rewrite doValidate_required_None].
  destruct e as [e'|];
    [|rewrite doValidate_required_None; by destruct (doValidate _ _)].
  destruct p as [p'|];
    [|rewrite doValidate_required_None; by do 2 destruct (doValidate _ _)].
  intros _. by eexists _, _, _.
Qed.

(** X3: a request that ends in an error, of whatever kind and on whatever
    route, leaves the collection as it was. *)
Theorem failed_request_keeps_collection (req : Request) (w w' : World)
    (e : Error) :
  handle req w = (Thrown e, w') → users w' = users w.
Proof.
  intros Hh. destruct (decide (bearer req = Some secret)) as [Heq|Hne].
  - rewrite handle_accepted in Hh by done.
    pose proof (handler_thrown_users (route req) w e) as Hu.
    rewrite Hh in Hu. by apply Hu.
  - rewrite handle_rejected in Hh by done. by inversion Hh.
Qed.

Lemma failed_request_keeps_collection_witness :
  users (handle (with_token (DELETE_user "not-an-id")) ann_world).2
  = users ann_world.
Proof.
  apply (failed_request_keeps_collection
           (with_token (DELETE_user "not-an-id")) ann_world
           (handle (with_token (DELETE_user "not-an-id")) ann_world).2
           (CastError "not-an-id")).
  reflexivity.
Defined.

Lemma handle_not_passes req w :
  passes req = false → handle req w = (Thrown Unauthorized, w).
Proof.
  intros Hp. apply handle_rejected. by apply bool_decide_eq_false in Hp.
Qed.

(** X6: requests that the hook rejects leave no trace: the run without
    them ends in the same state, and gives the remaining requests the
    responses they had. *)
Theorem rejected_requests_leave_no_trace (reqs : list Request) (w : World) :
  serve (accepted reqs) w
  = (answers_of_accepted reqs (serve reqs w).1, (serve reqs w).2).
Proof.
  revert w. induction reqs as [|req reqs IH]; intros w; [done|].
  cbn [serve accepted]. destruct (passes req) eqn:Hp.
  - cbn [serve]. destruct (handle req w) as [r w'].
    rewrite (IH w'). destruct (serve reqs w') as [rs w''].
    cbn [fst snd answers_of_accepted]. by rewrite Hp.
  - rewrite handle_not_passes by done. rewrite (IH w).
    destruct (serve reqs w) as [rs w''].
    cbn [fst snd answers_of_accepted]. by rewrite Hp.
Qed.

(** *** Updates and deletes *)

Lemma apply_update_idem n e p old :
  apply_update n e p (apply_update n e p old) = apply_update n e p old.
Proof. unfold apply_update. by destruct n, e, p. Qed.

(** X7: an update run twice with the same identifier and body stores
    what it stored the first time and answers the same, whether the
    identifier designates a document, designates none or is malformed. *)
Theorem update_idempotent (t : option string) (id : string)
    (body : JS.Object) (w : World) :
  users (handle {| bearer := t; route := PUT_user id body |}
           (handle {| bearer := t; route := PUT_user id body |} w).2).2
    = users (handle {| bearer := t; route := PUT_user id body |} w).2
  ∧ (handle {| bearer := t; route := PUT_user id body |}
       (handle {| bearer := t; route := PUT_user id body |} w).2).1
    = (handle {| bearer := t; route := PUT_user id body |} w).1.
Proof.
  destruct (decide (t = Some secret)) as [->|Hne];
    [|by rewrite !handle_rejected].
  rewrite !handle_accepted by done. cbn [route handler].
  destruct (castObjectId id) as [oid|] eqn:Hc.
  - destruct (users w !! oid) as [old|] eqn:Hl.
    + rewrite (put_user_found id oid body old w) by done. cbn [fst snd].
      erewrite put_user_found by (try done; apply lookup_insert_eq).
      cbn [fst snd users]. rewrite apply_update_idem.
      by rewrite insert_insert_eq.
    + rewrite (put_user_missing id oid body w) by done. cbn [fst snd].
      by erewrite put_user_missing.
  - rewrite (put_user_malformed id body w) by done. cbn [fst snd].
    by rewrite put_user_malformed.
Qed.

(** X8: an update never adds or removes a document: the identifiers
    stored after it are those stored before, for every credential,
    identifier and body. *)
Theorem update_keeps_identifiers (t : option string) (id : string)
    (body : JS.Object) (w : World) :
  dom (users (handle {| bearer := t; route := PUT_user id body |} w).2)
  = dom (users w).
Proof.
  destruct (decide (t = Some secret)) as [->|Hne];
    [|by rewrite handle_rejected].
  rewrite handle_accepted by done. cbn [route handler].
  destruct (castObjectId id) as [oid|] eqn:Hc;
    [|by rewrite put_user_malformed].
  destruct (users w !! oid) as [old|] eqn:Hl;
    [|by erewrite put_user_missing].
  erewrite put_user_found by done. cbn [snd users].
  rewrite dom_insert_L. apply (elem_of_dom_2 (users w)) in Hl.
  apply subseteq_union_1_L. by apply singleton_subseteq_l.
Qed.

(** X9: the answer of an authorised delete does not depend on the stored
    documents: the same identifier gets the same answer in any two
    states.  For a well-formed identifier that answer is [User deleted]
    whether or not a document was removed, and when the identifier
    designates no stored document the collection is unchanged. *)
Theorem delete_answer_ignores_state (id : string) (w1 w2 : World) :
  (handle (with_token (DELETE_user id)) w1).1
  = (handle (with_token (DELETE_user id)) w2).1
  ∧ (∀ oid, castObjectId id = Some oid →
       (handle (with_token (DELETE_user id)) w1).1
       = Returned (VString "User deleted")
       ∧ (users w1 !! oid = None →
          users (handle (with_token (DELETE_user id)) w1).2 = users w1)).
Proof.
  rewrite !handle_with_token. cbn [handler].
  destruct (castObjectId id) as [oid|] eqn:Hc.
  - assert (∀ w, (delete_user id w).1 = Returned (VString "User deleted"))
      as Hans.
    { intros w. destruct (users w !! oid) as [old|] eqn:Hl.
      - by erewrite delete_user_found.
      - by erewrite delete_user_missing. }
    split; [by rewrite !Hans|].
    intros oid' Hoid'. simplify_eq. split; [apply Hans|].
    intros Hl. by erewrite delete_user_missing.
  - rewrite !delete_user_malformed by done. split; [done|].
    intros oid' Hoid'. discriminate.
Qed.

Lemma delete_answer_ignores_state_witness :
  (handle (with_token (DELETE_user "0000000000000000000000ff")) ann_world).1
    = Returned (VString "User deleted")
  ∧ users (handle (with_token (DELETE_user "0000000000000000000000ff"))
             ann_world).2
    = users ann_world.
Proof.
  destruct (delete_answer_ignores_state "0000000000000000000000ff"
              ann_world empty_world) as [_ Hwell].
  destruct (Hwell 255) as [Hr Hu]; [reflexivity|].
  split; [exact Hr|]. apply Hu. reflexivity.
Defined.

(** *** How creates compose *)

Lemma wf_ann_world : wf ann_world.
Proof.
  intros k [f Hk]. destruct (decide (k = 0)) as [->|Hk0]; [reflexivity|].
  unfold ann_world in Hk. simpl in Hk. by rewrite lookup_singleton_ne in Hk.
Qed.

(** X10: a create is not idempotent: the same valid body sent twice
    stores two documents with the same fields under two different new
    identifiers, and the collection grows by two. *)
Theorem create_twice_two_documents (body : JS.Object) (n e p : string)
    (w : World) :
  wf w →
  body !! "name" = Some n → body !! "email" = Some e →
  body !! "password" = Some p →
  valid_length n → valid_length e → valid_length p →
  ∃ id1 id2 w2,
    let f := {| name := n; email := e; password := p |} in
    serve [with_token (POST_user body); with_token (POST_user body)] w
      = ([Returned (VDoc {| _id := id1; fields := f |});
          Returned (VDoc {| _id := id2; fields := f |})], w2)
    ∧ id1 ≠ id2
    ∧ users w !! id1 = None ∧ users w !! id2 = None
    ∧ users w2 = <[id2 := f]> (<[id1 := f]> (users w))
    ∧ size (users w2) = (size (users w) + 2)%nat.
Proof.
  intros Hwf Hn He Hp Vn Ve Vp.
  pose proof (wf_fresh _ Hwf) as Hfresh.
  pose proof (handler_wf (POST_user body) w Hwf) as Hwf1.
  cbn [handler] in Hwf1.
  rewrite (post_user_valid body n e p w) in Hwf1 by done. cbn [snd] in Hwf1.
  pose proof (wf_fresh _ Hwf1) as Hfresh1. cbn [users next_oid] in Hfresh1.
  exists (next_oid w), (N.succ (next_oid w)). eexists. cbn zeta.
  cbn [serve]. rewrite !handle_with_token. cbn [handler].
  rewrite (post_user_valid body n e p w) by done. cbv beta iota.
  rewrite handle_with_token. cbn [handler].
  rewrite (post_user_valid body n e p) by done. cbn [users next_oid journal].
  split; [reflexivity|]. split; [lia|]. split; [done|].
  assert (users w !! N.succ (next_oid w) = None) as Hfresh2.
  { rewrite lookup_insert_ne in Hfresh1 by lia. done. }
  split; [done|]. split; [done|]. cbn [users].
  rewrite !map_size_insert_None by done. lia.
Qed.

Lemma create_twice_two_documents_witness :
  ∃ id1 id2 w2,
    serve [with_token (POST_user {[ "name" := "Ann"; "email" := "ann@x.com";
                                    "password" := "secret" ]});
           with_token (POST_user {[ "name" := "Ann"; "email" := "ann@x.com";
                                    "password" := "secret" ]})] ann_world
      = ([Returned (VDoc {| _id := id1;
                            fields := {| name := "Ann"; email := "ann@x.com";
                                         password := "secret" |} |});
          Returned (VDoc {| _id := id2;
                            fields := {| name := "Ann"; email := "ann@x.com";
                                         password := "secret" |} |})], w2)
    ∧ id1 ≠ id2
    ∧ size (users w2) = 3%nat.
Proof.
  destruct (create_twice_two_documents
              {[ "name" := "Ann"; "email" := "ann@x.com";
                 "password" := "secret" ]}
              "Ann" "ann@x.com" "secret" ann_world)
    as (id1 & id2 & w2 & Hrun & Hne & _ & _ & _ & Hsize).
  - apply wf_ann_world.
  - reflexivity.
  - reflexivity.
  - reflexivity.
  - unfold valid_length; simpl; lia.
  - unfold valid_length; simpl; lia.
  - unfold valid_length; simpl; lia.
  - exists id1, id2, w2. split; [exact Hrun|]. split; [exact Hne|].
    rewrite Hsize. reflexivity.
Defined.

(** X11: a create followed by a delete of the identifier it assigned
    gives back the collection of before: the document is stored and
    removed again, and no other document is touched. *)
Theorem create_then_delete_restores (body : JS.Object) (n e p id : string)
    (w : World) :
  wf w →
  body !! "name" = Some n → body !! "email" = Some e →
  body !! "password" = Some p →
  valid_length n → valid_length e → valid_length p →
  castObjectId id = Some (next_oid w) →
  (serve [with_token (POST_user body); with_token (DELETE_user id)] w).1
    = [Returned (VDoc {| _id := next_oid w;
                         fields := {| name := n; email := e;
                                      password := p |} |});
       Returned (VString "User deleted")]
  ∧ users (serve [with_token (POST_user body);
                  with_token (DELETE_user id)] w).2
    = users w.
Proof.
  intros Hwf Hn He Hp Vn Ve Vp Hc.
  pose proof (wf_fresh _ Hwf) as Hfresh.
  cbn [serve]. rewrite !handle_with_token. cbn [handler].
  rewrite (post_user_valid body n e p w) by done. cbv beta iota.
  rewrite handle_with_token. cbn [handler].
  erewrite delete_user_found by (try done; apply lookup_insert_eq).
  cbn [fst snd users]. split; [done|]. by apply delete_insert_id.
Qed.

Lemma create_then_delete_restores_witness :
  users (serve [with_token (POST_user {[ "name" := "Bob";
                                         "email" := "bob@x.com";
                                         "password" := "secret" ]});
                with_token (DELETE_user "000000000000000000000001")]
           ann_world).2
  = users ann_world.
Proof.
  apply (create_then_delete_restores
           {[ "name" := "Bob"; "email" := "bob@x.com"; "password" := "secret" ]}
           "Bob" "bob@x.com" "secret" "000000000000000000000001" ann_world).
  - apply wf_ann_world.
  - reflexivity.
  - reflexivity.
  - reflexivity.
  - unfold valid_length; simpl; lia.
  - unfold valid_length; simpl; lia.
  - unfold valid_length; simpl; lia.
  - reflexivity.
Defined.

(** *** The bounds of the schema, as an invariant of the collection *)

Lemma doValidate_None_valid s :
  doValidate string_3_255 (Some s) = None → valid_length s.
Proof.
  unfold doValidate, valid_length; simpl.
  destruct (N.eqb_spec (N.of_nat (String.length s)) 0); [done|].
  destruct (N.ltb_spec (N.of_nat (String.length s)) 3); [done|].
  destruct (N.ltb_spec 255 (N.of_nat (String.length s))); [done|]. lia.
Qed.

Lemma validateSync_nil_valid n e p :
  validateSync UserSchema (Some n) (Some e) (Some p) = [] →
  valid_fields {| name := n; email := e; password := p |}.
Proof.
  unfold validateSync, path_errors, UserSchema, valid_fields.
  cbn [name_path email_path password_path name email password].
  destruct (doValidate string_3_255 (Some n)) eqn:Hn; [done|].
  destruct (doValidate string_3_255 (Some e)) eqn:He; [done|].
  destruct (doValidate string_3_255 (Some p)) eqn:Hp; [done|].
  intros _. repeat split; by apply doValidate_None_valid.
Qed.

Lemma post_user_all_valid body w :
  all_valid w → all_valid (post_user body w).2.
Proof.
  intros Hall.
  destruct (validateSync UserSchema (body !! "name") (body !! "email")
              (body !! "password")) as [|err errs] eqn:Hv;
    [|by rewrite post_user_invalid by (by rewrite Hv)].
  destruct (validateSync_nil_inv _ _ _ Hv) as (n & e & p & Hn & He & Hp).
  rewrite Hn, He, Hp in Hv. unfold_m. simpl. rewrite Hn, He, Hp, Hv. simpl.
  destruct (users w !! next_oid w) eqn:Hl; simpl; [done|].
  intros k f Hk. simpl in Hk.
  destruct (decide (k = next_oid w)) as [->|Hne].
  - rewrite lookup_insert_eq in Hk. inversion Hk; subst f.
    by apply validateSync_nil_valid.
  - rewrite lookup_insert_ne in Hk by done. by eapply Hall.
Qed.

Lemma handle_all_valid req w :
  all_valid w → is_put req = false → all_valid (handle req w).2.
Proof.
  intros Hall Hnp. destruct (decide (bearer req = Some secret)) as [Heq|Hne];
    [|by rewrite handle_rejected].
  rewrite handle_accepted by done. unfold is_put in Hnp.
  destruct (route req) as [body| |id body|id]; [| |done|]; cbn [handler].
  - by apply post_user_all_valid.
  - by rewrite get_user_eq.
  - destruct (castObjectId id) as [oid|] eqn:Hc;
      [|by rewrite delete_user_malformed].
    destruct (users w !! oid) as [old|] eqn:Hl;
      [|by erewrite delete_user_missing].
    erewrite delete_user_found by done. intros k f Hk. simpl in Hk.
    apply lookup_delete_Some in Hk as [_ Hk]. by eapply Hall.
Qed.

(** X12: creates, lists and deletes keep the bounds of the schema: when
    every stored document has its three fields between 3 and 255
    characters, so has every stored document after any run without an
    update, whatever the credentials, bodies and identifiers. *)
Theorem bounds_kept_without_update (reqs : list Request) (w : World) :
  all_valid w →
  Forall (λ req, is_put req = false) reqs →
  all_valid (serve reqs w).2.
Proof.
  revert w. induction reqs as [|req reqs IH]; intros w Hall Hnp; [done|].
  apply Forall_cons in Hnp as [Hreq Hnp].
  pose proof (handle_all_valid req w Hall Hreq) as Hall'.
  cbn [serve]. destruct (handle req w) as [r w'].
  specialize (IH w' Hall' Hnp). by destruct (serve reqs w') as [rs w''].
Qed.

Lemma bounds_kept_without_update_witness :
  all_valid
    (serve [ with_token (POST_user {[ "name" := "Ann"; "email" := "ann@x.com";
                                      "password" := "secret" ]});
             with_token (POST_user {[ "name" := "Al" ]});
             with_token GET_user;
             with_token (DELETE_user "000000000000000000000000") ]
       empty_world).2.
Proof.
  apply (bounds_kept_without_update
           [ with_token (POST_user {[ "name" := "Ann"; "email" := "ann@x.com";
                                      "password" := "secret" ]});
             with_token (POST_user {[ "name" := "Al" ]});
             with_token GET_user;
             with_token (DELETE_user "000000000000000000000000") ]
           empty_world).
  - intros k f Hk. simpl in Hk. by rewrite lookup_empty in Hk.
  - repeat constructor.
Defined.

(** X13: an update checks no length: when the identifier designates a
    stored document and the body carries a value for [name], [email] or
    [password] that the schema would reject, the update succeeds all the
    same; the document it returns and stores under that identifier has,
    for each of the three properties the body carries, exactly the value
    of the body, the rejected one included, and so breaks the bounds of
    the schema. *)
Theorem update_bypasses_validation (id : string) (oid : ObjectId)
    (body : JS.Object) (old : Fields) (v : string) (w : World) :
  castObjectId id = Some oid → users w !! oid = Some old →
  body !! "name" = Some v ∨ body !! "email" = Some v
    ∨ body !! "password" = Some v →
  ¬ valid_length v →
  ∃ d w',
    handle (with_token (PUT_user id body)) w = (Returned (VDoc d), w')
    ∧ _id d = oid
    ∧ users w' !! oid = Some (fields d)
    ∧ (∀ s, body !! "name" = Some s → name (fields d) = s)
    ∧ (∀ s, body !! "email" = Some s → email (fields d) = s)
    ∧ (∀ s, body !! "password" = Some s → password (fields d) = s)
    ∧ (name (fields d) = v ∨ email (fields d) = v ∨ password (fields d) = v)
    ∧ ¬ valid_fields (fields d)
    ∧ ¬ all_valid w'.
Proof.
  intros Hc Hl Hv Hbad. eexists _, _.
  rewrite handle_with_token. cbn [handler].
  erewrite put_user_found by done. split; [reflexivity|].
  cbn [users fields _id]. split; [done|]. split; [apply lookup_insert_eq|].
  unfold apply_update. cbn [name email password].
  split; [by intros s ->|]. split; [by intros s ->|]. split; [by intros s ->|].
  assert (default (name old) (body !! "name") = v
          ∨ default (email old) (body !! "email") = v
          ∨ default (password old) (body !! "password") = v) as Hcarried.
  { destruct Hv as [Hv|[Hv|Hv]]; rewrite Hv; cbn [default]; auto. }
  split; [done|].
  assert (¬ valid_fields
            {| name := default (name old) (body !! "name");
               email := default (email old) (body !! "email");
               password := default (password old) (body !! "password") |})
    as Hnv.
  { unfold valid_fields. cbn [name email password]. intros (Vn & Ve & Vp).
    destruct Hcarried as [H|[H|H]]; rewrite H in *; done. }
  split; [done|]. intros Hall. apply Hnv.
  apply (Hall oid). apply lookup_insert_eq.
Qed.

Lemma update_bypasses_validation_witness :
  ∃ d w',
    handle (with_token (PUT_user "000000000000000000000000"
              {[ "name" := "" ]})) ann_world
      = (Returned (VDoc d), w')
    ∧ users w' !! 0 = Some (fields d)
    ∧ name (fields d) = ""
    ∧ ¬ valid_fields (fields d).
Proof.
  destruct (update_bypasses_validation "000000000000000000000000" 0
              {[ "name" := "" ]}
              {| name := "Ann"; email := "ann@x.com"; password := "secret" |}
              "" ann_world)
    as (d & w' & Hput & _ & Hl & Hname & _ & _ & _ & Hnv & _).
  - reflexivity.
  - reflexivity.
  - left. reflexivity.
  - unfold valid_length. simpl. lia.
  - exists d, w'. split; [exact Hput|]. split; [exact Hl|].
    split; [|exact Hnv]. apply Hname. reflexivity.
Defined.

(** *** What a validation error reports *)

Lemma length_zero_empty s : N.of_nat (String.length s) = 0 ↔ s = "".
Proof. destruct s; simpl; split; intros H; try done; lia. Qed.

Lemma doValidate_kind v k :
  doValidate string_3_255 v = Some k ↔
  match k with
  | KRequired => v = None ∨ v = Some ""
  | KMinlength =>
      ∃ s, v = Some s ∧ 1 ≤ N.of_nat (String.length s)
           ∧ N.of_nat (String.length s) < 3
  | KMaxlength => ∃ s, v = Some s ∧ 255 < N.of_nat (String.length s)
  end.
Proof.
  destruct v as [s|]; unfold doValidate; simpl.
  - pose proof (length_zero_empty s) as Hz.
    destruct (N.eqb_spec (N.of_nat (String.length s)) 0) as [H0|H0].
    { destruct k; split; try done.
      - intros _. right. f_equal. by apply Hz.
      - intros (s' & Hs' & Hlo & _). inversion Hs'; subst s'. lia.
      - intros (s' & Hs' & Hhi). inversion Hs'; subst s'. lia. }
    destruct (N.ltb_spec (N.of_nat (String.length s)) 3) as [H3|H3].
    { destruct k; split; try done.
      - intros [?|Hs]; [done|]. inversion Hs; subst s. by destruct H0.
      - intros _. exists s. split; [done|]. lia.
      - intros (s' & Hs' & Hhi). inversion Hs'; subst s'. lia. }
    destruct (N.ltb_spec 255 (N.of_nat (String.length s))) as [H255|H255].
    { destruct k; split; try done.
      - intros [?|Hs]; [done|]. inversion Hs; subst s. by destruct H0.
      - intros (s' & Hs' & _ & Hlt). inversion Hs'; subst s'. lia.
      - intros _. by exists s. }
    destruct k; split; try done.
    + intros [?|Hs]; [done|]. inversion Hs; subst s. by destruct H0.
    + intros (s' & Hs' & _ & Hlt). inversion Hs'; subst s'. lia.
    + intros (s' & Hs' & Hhi). inversion Hs'; subst s'. lia.
  - destruct k; split; try done.
    + intros _. by left.
    + by intros (s' & Hs' & _).
    + by intros (s' & Hs' & _).
Qed.

Lemma elem_of_path_errors path q o v k :
  (path, k) ∈ path_errors q o v ↔ path = q ∧ doValidate o v = Some k.
Proof.
  unfold path_errors. destruct (doValidate o v) as [k'|].
  - rewrite list_elem_of_singleton. split.
    + intros H. by inversion H.
    + intros [-> Hk]. by inversion Hk.
  - rewrite elem_of_nil. split; [done|]. by intros [_ ?].
Qed.

Lemma elem_of_validateSync (body : JS.Object) path k :
  path = "name" ∨ path = "email" ∨ path = "password" →
  (path, k) ∈ validateSync UserSchema (body !! "name") (body !! "email")
                (body !! "password")
  ↔ doValidate string_3_255 (body !! path) = Some k.
Proof.
  unfold validateSync, UserSchema. cbn [name_path email_path password_path].
  rewrite !elem_of_app, !elem_of_path_errors.
  intros [ -> | [ -> | -> ] ]; split;
    try (intros [ [? ?] | [ [? ?] | [? ?] ] ]; done); auto.
Qed.

Lemma post_user_validation_error (body : JS.Object) w errs w' :
  post_user body w = (Thrown (ValidationError errs), w') →
  errs = validateSync UserSchema (body !! "name") (body !! "email")
           (body !! "password").
Proof.
  intros Hh.
  destruct (validateSync UserSchema (body !! "name") (body !! "email")
              (body !! "password")) as [|err errs'] eqn:Hv.
  - destruct (validateSync_nil_inv _ _ _ Hv) as (n & e & p & Hn & He & Hp).
    rewrite Hn, He, Hp in Hv. unfold_m. simpl in Hh.
    rewrite Hn, He, Hp, Hv in Hh. simpl in Hh.
    by destruct (users w !! next_oid w).
  - rewrite post_user_invalid in Hh by (by rewrite Hv).
    rewrite Hv in Hh. by inversion Hh.
Qed.

(** X14: what the validation error of a create reports for each of
    [name], [email] and [password]: [required] exactly when the property
    is missing or the empty string, [minlength] exactly when it has one
    or two characters, [maxlength] exactly when it has more than 255; so
    at most one error for a path. *)
Theorem validation_report (body : JS.Object) (w w' : World)
    (errs : list (string * ValidatorKind)) (path : string) :
  handle (with_token (POST_user body)) w = (Thrown (ValidationError errs), w') →
  path = "name" ∨ path = "email" ∨ path = "password" →
  ((path, KRequired) ∈ errs ↔
     body !! path = None ∨ body !! path = Some "")
  ∧ ((path, KMinlength) ∈ errs ↔
       ∃ s, body !! path = Some s ∧ 1 ≤ N.of_nat (String.length s)
            ∧ N.of_nat (String.length s) < 3)
  ∧ ((path, KMaxlength) ∈ errs ↔
       ∃ s, body !! path = Some s ∧ 255 < N.of_nat (String.length s))
  ∧ (∀ k1 k2, (path, k1) ∈ errs → (path, k2) ∈ errs → k1 = k2).
Proof.
  intros Hh Hpath. rewrite handle_with_token in Hh. cbn [handler] in Hh.
  apply post_user_validation_error in Hh. subst errs.
  split; [|split; [|split]].
  - rewrite elem_of_validateSync by done. apply (doValidate_kind _ KRequired).
  - rewrite elem_of_validateSync by done. apply (doValidate_kind _ KMinlength).
  - rewrite elem_of_validateSync by done. apply (doValidate_kind _ KMaxlength).
  - intros k1 k2. rewrite !elem_of_validateSync by done. congruence.
Qed.

Lemma validation_report_witness :
  ("email", KRequired)
    ∈ validateSync UserSchema (Some "Ann") None (Some "pw").
Proof.
  apply (validation_report
           {[ "name" := "Ann"; "password" := "pw" ]} empty_world
           (handle (with_token
                      (POST_user {[ "name" := "Ann"; "password" := "pw" ]}))
              empty_world).2
           (validateSync UserSchema (Some "Ann") None (Some "pw")) "email").
  - reflexivity.
  - right. left. reflexivity.
  - left. reflexivity.
Defined.
